(** * Books and authors reducers, and their combination

    A shallow embedding of the two slice reducers of the lab
    ([features/books/booksSlice.js] and [features/authors/authorsSlice.js])
    and of the root reducer built from them with [combineReducers].

    JavaScript arrays are lists, [Array.prototype.filter] is [List.filter],
    [Array.prototype.find] is [List.find] (with [None] for [undefined]),
    the spread [[...state, x]] is [state ++ [x]].  A parameter with a
    default value ([state = initialState]) takes an [option]: [None] is
    [undefined]. *)

From Stdlib Require Import Ascii String List Bool Arith Lia.
From Stdlib Require Import ZArith.
Import ListNotations.
Open Scope string_scope.
Open Scope list_scope.

Set Implicit Arguments.

(** ** Data model *)

(** A book record, as [BookInput.js] builds it:
    [{ title, authorName, id: uuid() }]. *)
Module Book.
Record t : Type := mk { id : string; title : string; authorName : string }.
End Book.

(** An author record, as [AuthorInput.js] and the reducer build it:
    [{ authorName, id: uuid() }]. *)
Module Author.
Record t : Type := mk { id : string; authorName : string }.
End Author.

(** What an action carries in its [payload] field: a book record, an author
    record, an id, or nothing ([undefined]). *)
Inductive Payload : Type :=
| book_payload (book : Book.t)
| author_payload (author : Author.t)
| id_payload (id : string)
| undefined_payload.

(** An action: [{ type, payload }]. *)
Record Action : Type := { type : string; payload : Payload }.

(** [x.id !== action.payload] is decided by [===] between the id of a record,
    a string, and the payload: only a string payload with the same
    characters is strictly equal to it; an object or [undefined] never is. *)
Definition strict_eq_id (i : string) (p : Payload) : bool :=
  match p with
  | id_payload j => i =? j
  | _ => false
  end.

(** [action.payload.authorName], where the payload is a record that has the
    field.  [None] stands for the two cases that leave the typed model: a
    string payload (the field reads as [undefined], which is no author
    name) and an [undefined] payload (the read throws). *)
Definition payload_authorName (p : Payload) : option string :=
  match p with
  | book_payload b => Some (Book.authorName b)
  | author_payload a => Some (Author.authorName a)
  | _ => None
  end.

(** ** The id generator *)

(** Modelled from the spec: the id generator, [uuid] of the [uuid] package,
    which is not part of the repository.  A call returns an id and moves the
    generator on; [issued] is the record of the ids handed out so far, and
    no call returns one of them again. *)
Class IdGen (G : Type) : Type := {
  uuid : G -> string * G;
  issued : G -> list string;
  uuid_fresh : forall g, ~ In (fst (uuid g)) (issued g);
  uuid_issued : forall g, issued (snd (uuid g)) = fst (uuid g) :: issued g
}.

(** A generator to run the model with: a counter, the [n]-th id being
    ["id-"] followed by [n] strokes. *)
Fixpoint strokes (n : nat) : string :=
  match n with
  | O => ""
  | S k => String "|"%char (strokes k)
  end.

Definition counter_id (n : nat) : string := String.append "id-" (strokes n).

Fixpoint counter_issued (n : nat) : list string :=
  match n with
  | O => []
  | S k => counter_id k :: counter_issued k
  end.

#[export] Instance counter_gen : IdGen nat.
Proof.
  refine {| uuid := fun n => (counter_id n, S n); issued := counter_issued |}.
  - intros n Hin; simpl in Hin.
    assert (Hlen : forall k, String.length (strokes k) = k)
      by (induction k as [|k IH]; simpl; congruence).
    assert (Hlt : forall k s, In s (counter_issued k) ->
                              exists m, m < k /\ s = counter_id m).
    { induction k as [|k IH]; simpl; [tauto|].
      intros s [E | Hs].
      - exists k. split; [lia | now symmetry].
      - destruct (IH s Hs) as [m [Hm E]]. exists m. split; [lia | exact E]. }
    destruct (Hlt _ _ Hin) as [m [Hm E]].
    unfold counter_id in E; simpl in E. injection E as E.
    apply (f_equal String.length) in E. rewrite !Hlen in E. lia.
  - intros n. reflexivity.
Defined.

(** ** [features/books/booksSlice.js] *)

Module BooksSlice.

(** Action creators. *)
Definition addBook (book : Book.t) : Action :=
  {| type := "books/add"; payload := book_payload book |}.

Definition removeBook (id : string) : Action :=
  {| type := "books/remove"; payload := id_payload id |}.

Definition initialState : list Book.t := [].

(** The reducer.  The result is [None] only where the source would store
    a payload that is not a book record in the array. *)
Definition booksReducer (state : option (list Book.t)) (action : Action)
  : option (list Book.t) :=
  let state := match state with Some s => s | None => initialState end in
  if type action =? "books/add" then
    match payload action with
    | book_payload book => Some (state ++ [book])
    | _ => None
    end
  else if type action =? "books/remove" then
    Some (filter (fun book => negb (strict_eq_id (Book.id book) (payload action)))
                 state)
  else
    Some state.

End BooksSlice.

(** ** [features/authors/authorsSlice.js] *)

Module AuthorsSlice.

(** Action creators. *)
Definition addAuthor (author : Author.t) : Action :=
  {| type := "authors/add"; payload := author_payload author |}.

Definition removeAuthor (id : string) : Action :=
  {| type := "authors/remove"; payload := id_payload id |}.

Definition initialState : list Author.t := [].

(** The reducer, with the generator passed in and out: [uuid()] is called
    once, in the branch that synthesizes an author.  The result is [None]
    only where the source would store a value that is not an author
    record, or throws reading a field of [undefined]. *)
Definition authorsReducer {G : Type} `{IdGen G}
    (state : option (list Author.t)) (action : Action) (g : G)
  : option (list Author.t * G) :=
  let state := match state with Some s => s | None => initialState end in
  if type action =? "authors/add" then
    match payload action with
    | author_payload author => Some (state ++ [author], g)
    | _ => None
    end
  else if type action =? "authors/remove" then
    Some (filter (fun author =>
                    negb (strict_eq_id (Author.id author) (payload action)))
                 state, g)
  else if type action =? "books/add" then
    match payload_authorName (payload action) with
    | Some name =>
        let existingAuthor :=
          find (fun author => Author.authorName author =? name) state in
        match existingAuthor with
        | Some _ => Some (state, g)
        | None =>
            let (id, g') := uuid g in
            Some (state ++ [{| Author.authorName := name; Author.id := id |}],
                  g')
        end
    | None => None
    end
  else
    Some (state, g).

End AuthorsSlice.

(** ** The root reducer ([src/reducers.js] in the README) *)

(** The composite state: [{ authors, books }]. *)
Record RootState : Type := { authors : list Author.t; books : list Book.t }.

(** Modelled from the spec: [combineReducers] of the [redux] package, which
    is not part of the repository, at the mapping [{ authors, books }].  The
    function it returns reads each field of the composite state (every field
    is [undefined] when the composite state is), calls the field's reducer
    with that value and the incoming action, in the order of the keys, and
    builds a new composite state from the results.  The README says the
    same: the state returned has a key [books] with the return value of
    [booksReducer] and a key [authors] with that of [authorsReducer], and
    [authorsReducer] receives [state.authors] as its state.  The
    initialization action of the spec is the first action a store sends; it
    reaches the reducers like any other, with a type none has a case for. *)
Definition combineReducers {G : Type}
    (authorsR : option (list Author.t) -> Action -> G -> option (list Author.t * G))
    (booksR : option (list Book.t) -> Action -> option (list Book.t))
  : option RootState -> Action -> G -> option (RootState * G) :=
  fun state action g =>
    match authorsR (option_map authors state) action g with
    | Some (nextAuthors, g') =>
        match booksR (option_map books state) action with
        | Some nextBooks =>
            Some ({| authors := nextAuthors; books := nextBooks |}, g')
        | None => None
        end
    | None => None
    end.

Definition rootReducer {G : Type} `{IdGen G}
  : option RootState -> Action -> G -> option (RootState * G) :=
  combineReducers AuthorsSlice.authorsReducer BooksSlice.booksReducer.

(** ** What the source's words for removal mean

    "Removes the first record whose id is [i]": the reading of removal that
    the spec gives, to be compared with the [filter] of the reducers. *)
Section RemoveFirst.
Variable A : Type.
Variable id_of : A -> string.

Fixpoint remove_first (i : string) (l : list A) : list A :=
  match l with
  | [] => []
  | x :: rest => if id_of x =? i then rest else x :: remove_first i rest
  end.

(** How many records of [l] have id [i]. *)
Definition count_id (i : string) (l : list A) : nat :=
  length (filter (fun x => id_of x =? i) l).

(** The predicate of the reducers' [filter] when the payload is the id
    [i]: [x.id !== i]. *)
Definition keeps (i : string) (x : A) : bool :=
  negb (strict_eq_id (id_of x) (id_payload i)).
End RemoveFirst.

(** How many authors of [l] are named [name]. *)
Definition count_name (name : string) (l : list Author.t) : nat :=
  length (filter (fun a => Author.authorName a =? name) l).

(** The action types some reducer has a case for. *)
Definition handled_types : list string :=
  ["books/add"; "books/remove"; "authors/add"; "authors/remove"].

(** The actions that keep the reducers inside the typed model: an action
    of type ["books/add"] carries a book record, one of type ["authors/add"]
    an author record; every other action passes, whatever it carries. *)
Definition well_shaped (action : Action) : bool :=
  if type action =? "books/add" then
    match payload action with book_payload _ => true | _ => false end
  else if type action =? "authors/add" then
    match payload action with author_payload _ => true | _ => false end
  else true.

(** Sample records for the examples. *)
Definition snow_crash : Book.t :=
  {| Book.id := "b1"; Book.title := "Snow Crash";
     Book.authorName := "Neal Stephenson" |}.

Definition tom_sawyer : Book.t :=
  {| Book.id := "b2"; Book.title := "The Adventures of Tom Sawyer";
     Book.authorName := "Mark Twain" |}.

Definition mark_twain : Author.t :=
  {| Author.id := "a1"; Author.authorName := "Mark Twain" |}.

Definition mark_twain_lower : Author.t :=
  {| Author.id := "a2"; Author.authorName := "mark twain" |}.

(** ** The single reducer the lab starts from

    The first version of [booksSlice.js]: one reducer over the whole state
    [{ authors, books }], with the four action creators beside it. *)

Module SingleReducer.

Definition addAuthor (author : Author.t) : Action :=
  {| type := "authors/add"; payload := author_payload author |}.

Definition removeAuthor (id : string) : Action :=
  {| type := "authors/remove"; payload := id_payload id |}.

Definition addBook (book : Book.t) : Action :=
  {| type := "books/add"; payload := book_payload book |}.

Definition removeBook (id : string) : Action :=
  {| type := "books/remove"; payload := id_payload id |}.

Definition initialState : RootState := {| authors := []; books := [] |}.

(** [{ ...state, books: b }] keeps the other field of [state]. *)
Definition reducer (state : option RootState) (action : Action)
  : option RootState :=
  let state := match state with Some s => s | None => initialState end in
  if type action =? "books/add" then
    match payload action with
    | book_payload book =>
        Some {| authors := authors state; books := books state ++ [book] |}
    | _ => None
    end
  else if type action =? "books/remove" then
    let newBooks :=
      filter (fun book => negb (strict_eq_id (Book.id book) (payload action)))
             (books state) in
    Some {| authors := authors state; books := newBooks |}
  else if type action =? "authors/add" then
    match payload action with
    | author_payload author =>
        Some {| authors := authors state ++ [author]; books := books state |}
    | _ => None
    end
  else if type action =? "authors/remove" then
    let newAuthors :=
      filter (fun author =>
                negb (strict_eq_id (Author.id author) (payload action)))
             (authors state) in
    Some {| authors := newAuthors; books := books state |}
  else
    Some state.

End SingleReducer.

(** ** Arrays by index: [findIndex] and [slice] *)

(** [Array.prototype.findIndex]: the index of the first element that
    satisfies [f], [-1] when there is none. *)
Fixpoint findIndex_from (A : Type) (f : A -> bool) (l : list A) (k : Z) : Z :=
  match l with
  | [] => (-1)%Z
  | x :: rest => if f x then k else findIndex_from f rest (k + 1)%Z
  end.

Definition findIndex (A : Type) (f : A -> bool) (l : list A) : Z :=
  findIndex_from f l 0%Z.

(** How [slice] reads an index against the length [len]: a negative index
    counts from the end, and the result is clamped to [0 .. len]. *)
Definition relative_index (len i : Z) : Z :=
  if (i <? 0)%Z then Z.max (len + i) 0 else Z.min i len.

(** [Array.prototype.slice(start, end)]; [None] is an omitted [end]. *)
Definition slice (A : Type) (l : list A) (start : Z) (end_ : option Z)
  : list A :=
  let len := Z.of_nat (length l) in
  let k := relative_index len start in
  let final := match end_ with
               | Some e => relative_index len e
               | None => len
               end in
  firstn (Z.to_nat (final - k)) (skipn (Z.to_nat k) l).

(** ** [bookApp], the reducer with actions of the older shape *)

Module BookApp.

(** An action [{ type, book, id, author }]; a field that is absent reads as
    [undefined], here [None]. *)
Record Action : Type := {
  type : string;
  book : option Book.t;
  id : option string;
  author : option Author.t
}.

(** [x.id === action.id]: a string is never [===] to [undefined]. *)
Definition strict_eq_opt (i : string) (j : option string) : bool :=
  match j with
  | Some j => i =? j
  | None => false
  end.

(** The reducer.  The result is [None] only where the source would store
    [undefined] in an array. *)
Definition bookApp (state : option RootState) (action : Action)
  : option RootState :=
  let state := match state with
               | Some s => s
               | None => {| authors := []; books := [] |}
               end in
  if type action =? "ADD_BOOK" then
    match book action with
    | Some b => Some {| authors := authors state; books := books state ++ [b] |}
    | None => None
    end
  else if type action =? "REMOVE_BOOK" then
    let idx := findIndex (fun book => strict_eq_opt (Book.id book) (id action))
                         (books state) in
    Some {| authors := authors state;
            books := slice (books state) 0 (Some idx)
                     ++ slice (books state) (idx + 1) None |}
  else if type action =? "ADD_AUTHOR" then
    match author action with
    | Some a =>
        Some {| authors := authors state ++ [a]; books := books state |}
    | None => None
    end
  else if type action =? "REMOVE_AUTHOR" then
    let idx := findIndex (fun author =>
                            strict_eq_opt (Author.id author) (id action))
                         (authors state) in
    Some {| authors := slice (authors state) 0 (Some idx)
                       ++ slice (authors state) (idx + 1) None;
            books := books state |}
  else
    Some state.

(** The two removal actions. *)
Definition REMOVE_BOOK (i : string) : Action :=
  {| type := "REMOVE_BOOK"; book := None; id := Some i; author := None |}.

Definition REMOVE_AUTHOR (i : string) : Action :=
  {| type := "REMOVE_AUTHOR"; book := None; id := Some i; author := None |}.

End BookApp.

(** ** The two forms *)

(** [BookInput.js]: [handleSubmit] builds the book from the form data and a
    new id, dispatches [addBook(book)] and empties the form.  The function
    returns the action it dispatches, the form data it sets, and the
    generator. *)
Module BookInput.

Record FormData : Type := { title : string; authorName : string }.

Definition handleSubmit {G : Type} `{IdGen G} (formData : FormData) (g : G)
  : Action * FormData * G :=
  let (id, g') := uuid g in
  let book := {| Book.title := title formData;
                 Book.authorName := authorName formData;
                 Book.id := id |} in
  (BooksSlice.addBook book, {| title := ""; authorName := "" |}, g').

End BookInput.

(** [AuthorInput.js]: [handleSubmit] builds the author from the name typed
    and a new id, dispatches [addAuthor(author)], with [addAuthor] the
    action creator of [./booksSlice], and empties the field. *)
Module AuthorInput.

Definition handleSubmit {G : Type} `{IdGen G} (authorName : string) (g : G)
  : Action * string * G :=
  let (id, g') := uuid g in
  let author := {| Author.authorName := authorName; Author.id := id |} in
  (SingleReducer.addAuthor author, "", g').

End AuthorInput.

(** ** Runs of the application *)

(** The ids of both collections are pairwise distinct within their
    collection, and all of them were issued by the generator. *)
Definition ids_unique {G : Type} `{IdGen G} (S : RootState) (g : G) : Prop :=
  NoDup (map Book.id (books S)) /\
  NoDup (map Author.id (authors S)) /\
  (forall b, In b (books S) -> In (Book.id b) (issued g)) /\
  (forall a, In a (authors S) -> In (Author.id a) (issued g)).

(** Modelled from the spec: the dispatcher that holds the state (the store
    of the [redux] package), which runs the root reducer on the state it
    holds and each action it is sent, one at a time.  The actions are those
    of the two forms, removals, and actions of a type no reducer handles. *)
Inductive app_step {G : Type} `{IdGen G}
  : RootState * G -> RootState * G -> Prop :=
| step_submit_book (S : RootState) (g : G) (formData : BookInput.FormData)
    (S' : RootState) (g' : G) :
    rootReducer (Some S) (fst (fst (BookInput.handleSubmit formData g)))
                (snd (BookInput.handleSubmit formData g)) = Some (S', g') ->
    app_step (S, g) (S', g')
| step_submit_author (S : RootState) (g : G) (name : string)
    (S' : RootState) (g' : G) :
    rootReducer (Some S) (fst (fst (AuthorInput.handleSubmit name g)))
                (snd (AuthorInput.handleSubmit name g)) = Some (S', g') ->
    app_step (S, g) (S', g')
| step_remove_book (S : RootState) (g : G) (i : string)
    (S' : RootState) (g' : G) :
    rootReducer (Some S) (BooksSlice.removeBook i) g = Some (S', g') ->
    app_step (S, g) (S', g')
| step_remove_author (S : RootState) (g : G) (i : string)
    (S' : RootState) (g' : G) :
    rootReducer (Some S) (AuthorsSlice.removeAuthor i) g = Some (S', g') ->
    app_step (S, g) (S', g')
| step_other (S : RootState) (g : G) (e : Action)
    (S' : RootState) (g' : G) :
    ~ In (type e) handled_types ->
    rootReducer (Some S) e g = Some (S', g') ->
    app_step (S, g) (S', g').

(** The states a run reaches from the empty state. *)
Inductive reachable {G : Type} `{IdGen G} (g0 : G) : RootState * G -> Prop :=
| reachable_start : reachable g0 ({| authors := []; books := [] |}, g0)
| reachable_step (x y : RootState * G) :
    reachable g0 x -> app_step x y -> reachable g0 y.

(** ** The two lists shown

    [Books.js] and [Authors.js] read their slice of the state and map each
    record to a list item [<li key={x.id}>...</li>]; an item is its key and
    its text. *)
Record li : Type := { key : string; text : string }.

Definition Books (state : RootState) : list li :=
  map (fun book =>
         {| key := Book.id book;
            text := String.append (Book.title book)
                      (String.append " by " (Book.authorName book)) |})
      (books state).

Definition Authors (state : RootState) : list li :=
  map (fun author =>
         {| key := Author.id author; text := Author.authorName author |})
      (authors state).

(** * Properties *)

(** ** Lists filtered by id *)

Section ById.
Variable A : Type.
Variable id_of : A -> string.

Lemma filter_absent (i : string) (l : list A) :
  (forall x, In x l -> id_of x <> i) -> filter (keeps id_of i) l = l.
Proof.
  induction l as [|x rest IH]; intros Habs; simpl; [reflexivity|].
  unfold keeps at 1; simpl.
  destruct (String.eqb_spec (id_of x) i) as [E|_].
  - exfalso. apply (Habs x); [now left | exact E].
  - simpl. f_equal. apply IH. intros y Hy. apply Habs. now right.
Qed.

Lemma filter_is_remove_first (i : string) (l : list A) :
  NoDup (map id_of l) -> filter (keeps id_of i) l = remove_first id_of i l.
Proof.
  induction l as [|x rest IH]; intros Hnd; simpl; [reflexivity|].
  inversion Hnd as [|? ? Hx Hrest]; subst.
  unfold keeps at 1; simpl.
  destruct (String.eqb_spec (id_of x) i) as [E|_]; simpl.
  - apply filter_absent. intros y Hy Ey. apply Hx.
    rewrite E, <- Ey. now apply in_map.
  - f_equal. now apply IH.
Qed.

Lemma filter_no_match (i : string) (l : list A) :
  count_id id_of i (filter (keeps id_of i) l) = 0.
Proof.
  unfold count_id.
  induction l as [|x rest IH]; simpl; [reflexivity|].
  unfold keeps at 1; simpl.
  destruct (String.eqb_spec (id_of x) i) as [E|N]; simpl; [exact IH|].
  destruct (String.eqb_spec (id_of x) i); [contradiction | exact IH].
Qed.

Lemma filter_length (i : string) (l : list A) :
  length (filter (keeps id_of i) l) + count_id id_of i l = length l.
Proof.
  unfold count_id.
  induction l as [|x rest IH]; simpl; [reflexivity|].
  unfold keeps at 1; simpl.
  destruct (id_of x =? i); simpl; lia.
Qed.

Lemma filter_keeps_others (i : string) (l : list A) (x : A) :
  In x l -> id_of x <> i -> In x (filter (keeps id_of i) l).
Proof.
  intros Hin Hne. apply filter_In. split; [exact Hin|].
  unfold keeps; simpl. now destruct (String.eqb_spec (id_of x) i).
Qed.

Lemma remove_first_length (i : string) (l : list A) :
  1 <= count_id id_of i l -> S (length (remove_first id_of i l)) = length l.
Proof.
  unfold count_id.
  induction l as [|x rest IH]; simpl; [lia|].
  destruct (id_of x =? i); simpl; [reflexivity|].
  intros Hc. now rewrite IH.
Qed.

Lemma filter_differs_from_remove_first (i : string) (l : list A) :
  2 <= count_id id_of i l -> filter (keeps id_of i) l <> remove_first id_of i l.
Proof.
  intros Hc E. apply (f_equal (@length A)) in E.
  pose proof (filter_length i l) as Hl.
  pose proof (remove_first_length i l) as Hr.
  lia.
Qed.

End ById.

(** ** The cases of the two reducers *)

Section Cases.
Context {G : Type} `{IdGen G}.

Import BooksSlice AuthorsSlice.

Lemma booksReducer_add (s : list Book.t) (b : Book.t) :
  booksReducer (Some s) (addBook b) = Some (s ++ [b]).
Proof. reflexivity. Qed.

Lemma booksReducer_remove (s : list Book.t) (i : string) :
  booksReducer (Some s) (removeBook i) = Some (filter (keeps Book.id i) s).
Proof. reflexivity. Qed.

Lemma authorsReducer_add (s : list Author.t) (a : Author.t) (g : G) :
  authorsReducer (Some s) (addAuthor a) g = Some (s ++ [a], g).
Proof. reflexivity. Qed.

Lemma authorsReducer_remove (s : list Author.t) (i : string) (g : G) :
  authorsReducer (Some s) (removeAuthor i) g
  = Some (filter (keeps Author.id i) s, g).
Proof. reflexivity. Qed.

Lemma find_name_absent (name : string) (s : list Author.t) :
  (forall a, In a s -> Author.authorName a <> name) ->
  find (fun a => Author.authorName a =? name) s = None.
Proof.
  induction s as [|x rest IH]; intros Habs; simpl; [reflexivity|].
  destruct (String.eqb_spec (Author.authorName x) name) as [E|_].
  - exfalso. apply (Habs x); [now left | exact E].
  - apply IH. intros a Ha. apply Habs. now right.
Qed.

Lemma find_name_present (name : string) (s : list Author.t) :
  (exists a, In a s /\ Author.authorName a = name) ->
  exists a, find (fun a => Author.authorName a =? name) s = Some a.
Proof.
  induction s as [|x rest IH]; intros [a [Hin E]]; simpl.
  - destruct Hin.
  - destruct (String.eqb_spec (Author.authorName x) name) as [_|N].
    + now exists x.
    + apply IH. exists a. split; [|exact E].
      destruct Hin as [-> | Hin]; [contradiction | exact Hin].
Qed.

Lemma authorsReducer_addBook_known (s : list Author.t) (b : Book.t) (g : G) :
  (exists a, In a s /\ Author.authorName a = Book.authorName b) ->
  authorsReducer (Some s) (addBook b) g = Some (s, g).
Proof.
  intros Hex. apply find_name_present in Hex. destruct Hex as [a Ha].
  unfold authorsReducer, addBook; simpl. now rewrite Ha.
Qed.

Lemma authorsReducer_addBook_new (s : list Author.t) (b : Book.t) (g : G) :
  (forall a, In a s -> Author.authorName a <> Book.authorName b) ->
  authorsReducer (Some s) (addBook b) g
  = Some (s ++ [{| Author.id := fst (uuid g);
                   Author.authorName := Book.authorName b |}],
          snd (uuid g)).
Proof.
  intros Habs. unfold authorsReducer, addBook; simpl.
  rewrite find_name_absent by exact Habs. now destruct (uuid g).
Qed.

Lemma count_name_app (name : string) (s t : list Author.t) :
  count_name name (s ++ t) = count_name name s + count_name name t.
Proof. unfold count_name. now rewrite filter_app, length_app. Qed.

Lemma count_name_zero (name : string) (s : list Author.t) :
  count_name name s = 0 <-> (forall a, In a s -> Author.authorName a <> name).
Proof.
  unfold count_name. induction s as [|x rest IH]; simpl.
  - split; [intros _ a [] | reflexivity].
  - destruct (String.eqb_spec (Author.authorName x) name) as [E|N]; simpl.
    + split; [discriminate|]. intros Habs. exfalso.
      apply (Habs x); [now left | exact E].
    + rewrite IH. split.
      * intros Habs a [<- | Ha]; [exact N | now apply Habs].
      * intros Habs a Ha. apply Habs. now right.
Qed.

(** An action whose type no reducer has a case for falls to [default]. *)
Lemma unhandled_types (e : Action) :
  ~ In (type e) handled_types ->
  (type e =? "books/add") = false /\ (type e =? "books/remove") = false /\
  (type e =? "authors/add") = false /\ (type e =? "authors/remove") = false.
Proof.
  unfold handled_types; simpl. intros Hn.
  repeat split; apply String.eqb_neq; intros E; apply Hn; rewrite E; tauto.
Qed.

End Cases.

(** ** The root reducer *)

Import BooksSlice AuthorsSlice.

(** The root reducer returns on every well-shaped action, and only on
    those. *)
Lemma rootReducer_defined {G : Type} `{IdGen G}
    (S : option RootState) (e : Action) (g : G) :
  rootReducer S e g = None <-> well_shaped e = false.
Proof.
  destruct e as [t p]. unfold well_shaped, rootReducer, combineReducers,
    authorsReducer, booksReducer; simpl.
  destruct (String.eqb_spec t "books/add") as [->|Nba]; simpl.
  - destruct p; simpl;
      try match goal with
          | |- context [find ?f ?l] => destruct (find f l)
          end;
      try destruct (uuid g); split; intros Hd; (discriminate Hd || reflexivity).
  - destruct (String.eqb_spec t "authors/add") as [->|Naa]; simpl.
    + destruct p; simpl; split; intros Hd; (discriminate Hd || reflexivity).
    + destruct (t =? "authors/remove"), (t =? "books/remove"); simpl;
        split; intros Hd; discriminate Hd.
Qed.

(** C1: on every composite state and every (well-shaped) action the root
    reducer returns the composite state with the two fields [authors] and
    [books], each holding what the field's own reducer returns on the prior
    value of that field and the action. *)
Theorem rootReducer_fields {G : Type} `{IdGen G}
    (S : RootState) (e : Action) (g : G) :
  well_shaped e = true ->
  exists nextAuthors nextBooks g',
    authorsReducer (Some (authors S)) e g = Some (nextAuthors, g') /\
    booksReducer (Some (books S)) e = Some nextBooks /\
    rootReducer (Some S) e g
    = Some ({| authors := nextAuthors; books := nextBooks |}, g').
Proof.
  intros Hws.
  destruct (rootReducer (Some S) e g) as [[S' g']|] eqn:Hr.
  - unfold rootReducer, combineReducers in Hr; simpl in Hr.
    destruct (authorsReducer (Some (authors S)) e g) as [[a' g1]|];
      [|discriminate].
    destruct (booksReducer (Some (books S)) e) as [b'|]; [|discriminate].
    injection Hr as <- <-. now exists a', b', g1.
  - apply rootReducer_defined in Hr. congruence.
Qed.

Lemma rootReducer_fields_witness :
  exists nextAuthors nextBooks g',
    authorsReducer (Some [mark_twain]) (addBook snow_crash) 0
    = Some (nextAuthors, g') /\
    booksReducer (Some [tom_sawyer]) (addBook snow_crash) = Some nextBooks /\
    rootReducer (Some {| authors := [mark_twain]; books := [tom_sawyer] |})
                (addBook snow_crash) 0
    = Some ({| authors := nextAuthors; books := nextBooks |}, g').
Proof.
  apply (rootReducer_fields
           {| authors := [mark_twain]; books := [tom_sawyer] |}
           (addBook snow_crash) 0).
  reflexivity.
Defined.

(** C2 as stated fails: called with an undefined composite state and an
    action that adds a book, each reducer starts from its empty initial
    value and then handles the action, so the book, and the author
    synthesized for it, are in the result. *)
Lemma undefined_state_addBook_not_empty :
  booksReducer None (addBook snow_crash) = Some [snow_crash] /\
  rootReducer None (addBook snow_crash) 0
  = Some ({| authors := [{| Author.id := "id-";
                            Author.authorName := "Neal Stephenson" |}];
             books := [snow_crash] |}, 1) /\
  ~ (forall (e : Action) (g : nat),
        exists g', rootReducer None e g
                   = Some ({| authors := []; books := [] |}, g')).
Proof.
  split; [reflexivity|]. split; [reflexivity|].
  intros Hall. destruct (Hall (addBook snow_crash) 0) as [g' Hg'].
  discriminate Hg'.
Qed.

(** C2, amended: called with an undefined composite state and an action
    whose type is neither ["books/add"] nor ["authors/add"], the root
    reducer returns [{ authors: [], books: [] }], and asks for no id. *)
Theorem rootReducer_undefined_state {G : Type} `{IdGen G}
    (e : Action) (g : G) :
  type e <> "books/add" -> type e <> "authors/add" ->
  rootReducer None e g = Some ({| authors := []; books := [] |}, g).
Proof.
  intros Nba Naa. destruct e as [t p]; simpl in *.
  apply String.eqb_neq in Nba, Naa.
  unfold rootReducer, combineReducers, authorsReducer, booksReducer; simpl.
  rewrite Nba, Naa.
  now destruct (t =? "authors/remove"), (t =? "books/remove").
Qed.

Lemma rootReducer_undefined_state_witness :
  rootReducer None {| type := "@@redux/INIT"; payload := undefined_payload |} 7
  = Some ({| authors := []; books := [] |}, 7).
Proof.
  apply (rootReducer_undefined_state
           {| type := "@@redux/INIT"; payload := undefined_payload |} 7);
    simpl; discriminate.
Defined.

(** ** The authors reducer on ["books/add"] *)

(** C3: when some author of the collection already has the display name of
    the book that an "add book" action carries, the authors reducer returns
    the collection unchanged (and asks for no id); in particular, from a
    collection with no author named "Mark Twain", adding an author of that
    name and then a book by "Mark Twain" leaves exactly one author of that
    name. *)
Theorem authorsReducer_known_author {G : Type} `{IdGen G} :
  (forall (s : list Author.t) (b : Book.t) (g : G),
      (exists a, In a s /\ Author.authorName a = Book.authorName b) ->
      authorsReducer (Some s) (addBook b) g = Some (s, g)) /\
  (forall (s : list Author.t) (a : Author.t) (b : Book.t) (g : G),
      Author.authorName a = "Mark Twain" ->
      Book.authorName b = "Mark Twain" ->
      (forall x, In x s -> Author.authorName x <> "Mark Twain") ->
      exists s1 s2 g2,
        authorsReducer (Some s) (addAuthor a) g = Some (s1, g) /\
        authorsReducer (Some s1) (addBook b) g = Some (s2, g2) /\
        s2 = s ++ [a] /\
        count_name "Mark Twain" s2 = 1).
Proof.
  split.
  - intros s b g. apply authorsReducer_addBook_known.
  - intros s a b g Ea Eb Habs.
    exists (s ++ [a]), (s ++ [a]), g.
    split; [apply authorsReducer_add|].
    split.
    + apply authorsReducer_addBook_known. exists a. split.
      * apply in_or_app. right. now left.
      * congruence.
    + split; [reflexivity|].
      rewrite count_name_app.
      apply count_name_zero in Habs. rewrite Habs.
      unfold count_name; simpl. rewrite Ea. reflexivity.
Qed.

Lemma authorsReducer_known_author_witness :
  authorsReducer (Some [mark_twain_lower; mark_twain]) (addBook tom_sawyer) 0
  = Some ([mark_twain_lower; mark_twain], 0) /\
  exists s1 s2 g2,
    authorsReducer (Some [mark_twain_lower]) (addAuthor mark_twain) 0
    = Some (s1, 0) /\
    authorsReducer (Some s1) (addBook tom_sawyer) 0 = Some (s2, g2) /\
    s2 = [mark_twain_lower] ++ [mark_twain] /\
    count_name "Mark Twain" s2 = 1.
Proof.
  split.
  - apply (proj1 authorsReducer_known_author
             [mark_twain_lower; mark_twain] tom_sawyer 0).
    exists mark_twain. split; [simpl; tauto | reflexivity].
  - apply (proj2 authorsReducer_known_author
             [mark_twain_lower] mark_twain tom_sawyer 0);
      [reflexivity | reflexivity |].
    intros x [<- | []]. simpl. discriminate.
Defined.

(** C4: when no author of the collection has the display name of the book
    that an "add book" action carries, the authors reducer returns the
    collection with one author record appended, every earlier entry kept in
    its place, whatever the ids of the collection are; the new record has
    the book's author name and the id the generator hands out.  When,
    moreover, the ids of the collection are ids the generator issued, the
    new id differs from all of them (and the ids of the new collection are
    again issued ids). *)
Theorem authorsReducer_new_author {G : Type} `{IdGen G}
    (s : list Author.t) (b : Book.t) (g : G) :
  (forall a, In a s -> Author.authorName a <> Book.authorName b) ->
  let fresh := {| Author.id := fst (uuid g);
                  Author.authorName := Book.authorName b |} in
  authorsReducer (Some s) (addBook b) g = Some (s ++ [fresh], snd (uuid g)) /\
  ((forall a, In a s -> In (Author.id a) (issued g)) ->
   ~ In (Author.id fresh) (map Author.id s) /\
   (forall a, In a (s ++ [fresh]) ->
              In (Author.id a) (issued (snd (uuid g))))).
Proof.
  intros Habs fresh. split.
  - now apply authorsReducer_addBook_new.
  - intros Hiss. split.
    + simpl. intros Hin. apply in_map_iff in Hin. destruct Hin as [a [E Ha]].
      apply (uuid_fresh g). rewrite <- E. now apply Hiss.
    + intros a Ha. rewrite uuid_issued. apply in_app_or in Ha.
      destruct Ha as [Ha | [<- | []]].
      * right. now apply Hiss.
      * now left.
Qed.

Lemma authorsReducer_new_author_witness :
  (authorsReducer (Some [mark_twain; mark_twain_lower]) (addBook snow_crash) 0
   = Some ([mark_twain; mark_twain_lower]
             ++ [{| Author.id := "id-";
                    Author.authorName := "Neal Stephenson" |}], 1)) /\
  (let s := [{| Author.id := "id-"; Author.authorName := "Mark Twain" |}] in
   let fresh := {| Author.id := "id-|";
                   Author.authorName := "Neal Stephenson" |} in
   authorsReducer (Some s) (addBook snow_crash) 1 = Some (s ++ [fresh], 2) /\
   ~ In (Author.id fresh) (map Author.id s) /\
   (forall a, In a (s ++ [fresh]) -> In (Author.id a) (issued 2))).
Proof.
  split.
  - refine (proj1 (authorsReducer_new_author
                     [mark_twain; mark_twain_lower] snow_crash 0 _)).
    intros a [<- | [<- | []]]; simpl; discriminate.
  - intros s fresh.
    assert (Habs : forall a, In a s ->
                             Author.authorName a <> Book.authorName snow_crash)
      by (intros a [<- | []]; simpl; discriminate).
    assert (Hiss : forall a, In a s -> In (Author.id a) (issued 1))
      by (intros a [<- | []]; simpl; tauto).
    split.
    + exact (proj1 (authorsReducer_new_author s snow_crash 1 Habs)).
    + exact (proj2 (authorsReducer_new_author s snow_crash 1 Habs) Hiss).
Defined.

(** C10: the lookup compares names character by character: when the
    collection has an author named "mark twain" and none named
    "Mark Twain", an "add book" action for "Mark Twain" appends a second
    author record and does not return the collection unchanged. *)
Theorem authorsReducer_names_case_sensitive {G : Type} `{IdGen G}
    (s : list Author.t) (b : Book.t) (g : G) :
  Book.authorName b = "Mark Twain" ->
  (exists a, In a s /\ Author.authorName a = "mark twain") ->
  (forall a, In a s -> Author.authorName a <> "Mark Twain") ->
  authorsReducer (Some s) (addBook b) g
  = Some (s ++ [{| Author.id := fst (uuid g);
                   Author.authorName := "Mark Twain" |}], snd (uuid g)) /\
  authorsReducer (Some s) (addBook b) g <> Some (s, g).
Proof.
  intros Eb _ Habs. rewrite <- Eb in Habs.
  rewrite (authorsReducer_addBook_new _ _ g Habs), Eb.
  split; [reflexivity|].
  intros E. injection E as E _.
  apply (f_equal (@length Author.t)) in E.
  rewrite length_app in E. simpl in E. lia.
Qed.

Lemma authorsReducer_names_case_sensitive_witness :
  authorsReducer (Some [mark_twain_lower]) (addBook tom_sawyer) 0
  = Some ([mark_twain_lower]
            ++ [{| Author.id := "id-"; Author.authorName := "Mark Twain" |}],
          1) /\
  authorsReducer (Some [mark_twain_lower]) (addBook tom_sawyer) 0
  <> Some ([mark_twain_lower], 0).
Proof.
  refine (authorsReducer_names_case_sensitive
            [mark_twain_lower] tom_sawyer 0 _ _ _).
  - reflexivity.
  - exists mark_twain_lower. split; [simpl; tauto | reflexivity].
  - intros a [<- | []]. simpl. discriminate.
Defined.

(** ** Removal *)

Lemma count_id_absent (A : Type) (id_of : A -> string) (i : string)
    (l : list A) :
  ~ In i (map id_of l) -> count_id id_of i l = 0.
Proof.
  unfold count_id. induction l as [|x rest IH]; simpl; [reflexivity|].
  intros Hn. destruct (String.eqb_spec (id_of x) i) as [E|_].
  - exfalso. apply Hn. now left.
  - apply IH. intros Hin. apply Hn. now right.
Qed.

Lemma count_id_unique (A : Type) (id_of : A -> string) (i : string)
    (l : list A) :
  NoDup (map id_of l) -> count_id id_of i l <= 1.
Proof.
  induction l as [|x rest IH]; simpl; intros Hnd; [unfold count_id; simpl; lia|].
  inversion Hnd as [|? ? Hx Hrest]; subst.
  unfold count_id in *; simpl.
  destruct (String.eqb_spec (id_of x) i) as [E|_]; simpl.
  - rewrite <- E. fold (count_id id_of (id_of x) rest).
    rewrite (count_id_absent _ _ _ Hx). lia.
  - now apply IH.
Qed.

(** C5: on a books collection whose ids are unique, "remove book" with id
    [i] returns the collection without the first record whose id is [i],
    which is the only one, and returns the collection itself when no record
    has id [i]; the authors reducer does the same on "remove author". *)
Theorem remove_with_unique_ids {G : Type} `{IdGen G} :
  (forall (s : list Book.t) (i : string),
      NoDup (map Book.id s) ->
      booksReducer (Some s) (removeBook i) = Some (remove_first Book.id i s) /\
      count_id Book.id i s <= 1 /\
      ((forall b, In b s -> Book.id b <> i) ->
       booksReducer (Some s) (removeBook i) = Some s)) /\
  (forall (s : list Author.t) (i : string) (g : G),
      NoDup (map Author.id s) ->
      authorsReducer (Some s) (removeAuthor i) g
      = Some (remove_first Author.id i s, g) /\
      count_id Author.id i s <= 1 /\
      ((forall a, In a s -> Author.id a <> i) ->
       authorsReducer (Some s) (removeAuthor i) g = Some (s, g))).
Proof.
  split.
  - intros s i Hnd. rewrite booksReducer_remove. repeat split.
    + f_equal. now apply filter_is_remove_first.
    + now apply count_id_unique.
    + intros Habs. f_equal. now apply filter_absent.
  - intros s i g Hnd. rewrite authorsReducer_remove. repeat split.
    + do 2 f_equal. now apply filter_is_remove_first.
    + now apply count_id_unique.
    + intros Habs. do 2 f_equal. now apply filter_absent.
Qed.

Lemma remove_with_unique_ids_witness :
  (booksReducer (Some [snow_crash; tom_sawyer]) (removeBook "b1")
   = Some (remove_first Book.id "b1" [snow_crash; tom_sawyer]) /\
   count_id Book.id "b1" [snow_crash; tom_sawyer] <= 1 /\
   ((forall b, In b [snow_crash; tom_sawyer] -> Book.id b <> "b1") ->
    booksReducer (Some [snow_crash; tom_sawyer]) (removeBook "b1")
    = Some [snow_crash; tom_sawyer])) /\
  (authorsReducer (Some [mark_twain; mark_twain_lower]) (removeAuthor "a9") 0
   = Some (remove_first Author.id "a9" [mark_twain; mark_twain_lower], 0) /\
   count_id Author.id "a9" [mark_twain; mark_twain_lower] <= 1 /\
   ((forall a, In a [mark_twain; mark_twain_lower] -> Author.id a <> "a9") ->
    authorsReducer (Some [mark_twain; mark_twain_lower]) (removeAuthor "a9") 0
    = Some ([mark_twain; mark_twain_lower], 0))).
Proof.
  split.
  - apply (proj1 (remove_with_unique_ids (G := nat))
             [snow_crash; tom_sawyer] "b1").
    simpl. repeat constructor; simpl; intuition discriminate.
  - apply (proj2 (remove_with_unique_ids (G := nat))
             [mark_twain; mark_twain_lower] "a9" 0).
    simpl. repeat constructor; simpl; intuition discriminate.
Defined.

(** C6: when the id of book [B] does not occur in the books collection [C],
    "add book" with [B] followed by "remove book" with the id of [B] gives
    [C] back. *)
Theorem add_then_remove_book (C : list Book.t) (B : Book.t) :
  ~ In (Book.id B) (map Book.id C) ->
  exists s1,
    booksReducer (Some C) (addBook B) = Some s1 /\
    booksReducer (Some s1) (removeBook (Book.id B)) = Some C.
Proof.
  intros Hn. exists (C ++ [B]). split; [apply booksReducer_add|].
  rewrite booksReducer_remove, filter_app. simpl.
  unfold keeps at 2; simpl. rewrite String.eqb_refl; simpl.
  rewrite app_nil_r. f_equal. apply filter_absent.
  intros b Hb E. apply Hn. rewrite <- E. now apply in_map.
Qed.

Lemma add_then_remove_book_witness :
  exists s1,
    booksReducer (Some [tom_sawyer]) (addBook snow_crash) = Some s1 /\
    booksReducer (Some s1) (removeBook (Book.id snow_crash))
    = Some [tom_sawyer].
Proof.
  apply (add_then_remove_book [tom_sawyer] snow_crash).
  simpl. intuition discriminate.
Defined.

(** C9: when two or more records of a books collection share the id [i],
    "remove book" with [i] removes all of them, not only the first: no
    record with id [i] is left, as many records are gone as had id [i],
    every record with another id is kept, and the result is not the
    collection without its first match; the authors reducer does the same
    on "remove author". *)
Theorem remove_every_match {G : Type} `{IdGen G} :
  (forall (s : list Book.t) (i : string),
      2 <= count_id Book.id i s ->
      exists s',
        booksReducer (Some s) (removeBook i) = Some s' /\
        count_id Book.id i s' = 0 /\
        length s' + count_id Book.id i s = length s /\
        (forall b, In b s -> Book.id b <> i -> In b s') /\
        s' <> remove_first Book.id i s) /\
  (forall (s : list Author.t) (i : string) (g : G),
      2 <= count_id Author.id i s ->
      exists s',
        authorsReducer (Some s) (removeAuthor i) g = Some (s', g) /\
        count_id Author.id i s' = 0 /\
        length s' + count_id Author.id i s = length s /\
        (forall a, In a s -> Author.id a <> i -> In a s') /\
        s' <> remove_first Author.id i s).
Proof.
  split.
  - intros s i Hc. exists (filter (keeps Book.id i) s).
    split; [apply booksReducer_remove|].
    split; [apply filter_no_match|].
    split; [apply filter_length|].
    split; [intros b; apply filter_keeps_others|].
    now apply filter_differs_from_remove_first.
  - intros s i g Hc. exists (filter (keeps Author.id i) s).
    split; [apply authorsReducer_remove|].
    split; [apply filter_no_match|].
    split; [apply filter_length|].
    split; [intros a; apply filter_keeps_others|].
    now apply filter_differs_from_remove_first.
Qed.

Lemma remove_every_match_witness :
  (exists s',
      booksReducer (Some [snow_crash; tom_sawyer; snow_crash]) (removeBook "b1")
      = Some s' /\
      count_id Book.id "b1" s' = 0 /\
      length s' + count_id Book.id "b1" [snow_crash; tom_sawyer; snow_crash]
      = length [snow_crash; tom_sawyer; snow_crash] /\
      (forall b, In b [snow_crash; tom_sawyer; snow_crash] ->
                 Book.id b <> "b1" -> In b s') /\
      s' <> remove_first Book.id "b1" [snow_crash; tom_sawyer; snow_crash]) /\
  (exists s',
      authorsReducer (Some [mark_twain; mark_twain]) (removeAuthor "a1") 0
      = Some (s', 0) /\
      count_id Author.id "a1" s' = 0 /\
      length s' + count_id Author.id "a1" [mark_twain; mark_twain]
      = length [mark_twain; mark_twain] /\
      (forall a, In a [mark_twain; mark_twain] ->
                 Author.id a <> "a1" -> In a s') /\
      s' <> remove_first Author.id "a1" [mark_twain; mark_twain]).
Proof.
  split.
  - apply (proj1 (remove_every_match (G := nat))
             [snow_crash; tom_sawyer; snow_crash] "b1").
    vm_compute. lia.
  - apply (proj2 (remove_every_match (G := nat))
             [mark_twain; mark_twain] "a1" 0).
    vm_compute. lia.
Defined.

(** ** Isolation of the fields, and actions no reducer handles *)

(** C7: through the root reducer, an "add author" action leaves the
    [books] field as it was (the books reducer returns its input), and an
    "add book" action leaves the earlier entries of the [authors] field
    unchanged and in place: the new field is the old one followed by at most
    one entry. *)
Theorem field_isolation {G : Type} `{IdGen G} (S : RootState) (g : G) :
  (forall a : Author.t,
      booksReducer (Some (books S)) (addAuthor a) = Some (books S) /\
      exists S',
        rootReducer (Some S) (addAuthor a) g = Some (S', g) /\
        books S' = books S) /\
  (forall b : Book.t,
      exists S' g' appended,
        rootReducer (Some S) (addBook b) g = Some (S', g') /\
        authors S' = authors S ++ appended /\
        length appended <= 1).
Proof.
  split.
  - intros a. split; [reflexivity|].
    exists {| authors := authors S ++ [a]; books := books S |}.
    split; reflexivity.
  - intros b.
    unfold rootReducer, combineReducers, authorsReducer, booksReducer; simpl.
    destruct (find _ (authors S)) as [known|].
    + exists {| authors := authors S; books := books S ++ [b] |}, g, [].
      split; [reflexivity|]. split; [simpl; now rewrite app_nil_r | simpl; lia].
    + destruct (uuid g) as [i g'].
      exists {| authors := authors S
                           ++ [{| Author.id := i;
                                  Author.authorName := Book.authorName b |}];
                books := books S ++ [b] |}, g',
        [{| Author.id := i; Author.authorName := Book.authorName b |}].
      split; [reflexivity|]. split; [reflexivity | simpl; lia].
Qed.

(** C8: an action whose type is none of the handled types goes to the
    [default] branch of both reducers, each of which returns its input, so
    the root reducer returns the composite state it was given; nothing
    fails and no id is asked for. *)
Theorem unhandled_action_noop {G : Type} `{IdGen G}
    (S : RootState) (e : Action) (g : G) :
  ~ In (type e) handled_types ->
  booksReducer (Some (books S)) e = Some (books S) /\
  authorsReducer (Some (authors S)) e g = Some (authors S, g) /\
  rootReducer (Some S) e g = Some (S, g).
Proof.
  intros Hn. apply unhandled_types in Hn.
  destruct Hn as [Eba [Ebr [Eaa Ear]]].
  unfold rootReducer, combineReducers, authorsReducer, booksReducer; simpl.
  rewrite Eba, Ebr, Eaa, Ear. destruct S as [a b]; simpl.
  repeat split; reflexivity.
Qed.

Lemma unhandled_action_noop_witness :
  let S := {| authors := [mark_twain]; books := [tom_sawyer] |} in
  let e := {| type := "ADD_BOOK"; payload := book_payload snow_crash |} in
  booksReducer (Some (books S)) e = Some (books S) /\
  authorsReducer (Some (authors S)) e 3 = Some (authors S, 3) /\
  rootReducer (Some S) e 3 = Some (S, 3).
Proof.
  intros S e. refine (unhandled_action_noop S e 3 _).
  simpl. intuition discriminate.
Defined.

(** * Further properties *)

(** ** Removal by index *)

Section ByIndex.
Variable A : Type.
Variable id_of : A -> string.
Variable i : string.

Lemma findIndex_from_absent (l : list A) (k : Z) :
  (forall x, In x l -> id_of x <> i) -> findIndex_from (fun x => id_of x =? i) l k = (-1)%Z.
Proof.
  revert k. induction l as [|x rest IH]; intros k Habs; simpl; [reflexivity|].
  destruct (String.eqb_spec (id_of x) i) as [E|_].
  - exfalso. apply (Habs x); [now left | exact E].
  - apply IH. intros y Hy. apply Habs. now right.
Qed.

Lemma findIndex_from_present (l : list A) (k : Z) :
  (exists x, In x l /\ id_of x = i) ->
  exists n,
    findIndex_from (fun x => id_of x =? i) l k = (k + Z.of_nat n)%Z /\
    n < length l /\
    firstn n l ++ skipn (S n) l = remove_first id_of i l.
Proof.
  revert k. induction l as [|x rest IH]; intros k [y [Hy Ey]];
    [destruct Hy|]; simpl.
  destruct (String.eqb_spec (id_of x) i) as [E|N].
  - exists 0. simpl. repeat split; [lia | lia].
  - assert (Hex : exists z, In z rest /\ id_of z = i).
    { exists y. split; [|exact Ey].
      destruct Hy as [-> | Hy]; [contradiction | exact Hy]. }
    destruct (IH (k + 1)%Z Hex) as [n [Hidx [Hlt Hrm]]].
    exists (S n). repeat split.
    + rewrite Hidx. lia.
    + lia.
    + simpl. f_equal. exact Hrm.
Qed.

Lemma relative_index_within (len k : Z) :
  (0 <= k <= len)%Z -> relative_index len k = k.
Proof.
  intros Hk. unfold relative_index.
  destruct (Z.ltb_spec k 0) as [Hneg|_]; lia.
Qed.

Lemma slice_prefix (l : list A) (n : nat) :
  n <= length l -> slice l 0 (Some (Z.of_nat n)) = firstn n l.
Proof.
  intros Hn. unfold slice.
  rewrite !relative_index_within by lia.
  rewrite Z.sub_0_r, Nat2Z.id. reflexivity.
Qed.

Lemma slice_suffix (l : list A) (n : nat) :
  n <= length l -> slice l (Z.of_nat n) None = skipn n l.
Proof.
  intros Hn. unfold slice.
  rewrite relative_index_within by lia. rewrite Nat2Z.id.
  apply firstn_all2. rewrite length_skipn. lia.
Qed.

Lemma slice_to_minus_one (l : list A) :
  slice l 0 (Some (-1)%Z) = removelast l.
Proof.
  unfold slice. rewrite (relative_index_within (k := 0)) by lia.
  unfold relative_index. change (-1 <? 0)%Z with true. cbv iota.
  rewrite removelast_firstn_len. simpl skipn. f_equal. lia.
Qed.

Lemma remove_at_index_present (l : list A) :
  (exists x, In x l /\ id_of x = i) ->
  slice l 0 (Some (findIndex (fun x => id_of x =? i) l))
  ++ slice l (findIndex (fun x => id_of x =? i) l + 1) None
  = remove_first id_of i l.
Proof.
  intros Hex. unfold findIndex.
  destruct (findIndex_from_present l 0 Hex) as [n [Hidx [Hlt Hrm]]].
  rewrite Hidx, Z.add_0_l.
  rewrite slice_prefix by lia.
  replace (Z.of_nat n + 1)%Z with (Z.of_nat (S n)) by lia.
  rewrite slice_suffix by lia. exact Hrm.
Qed.

Lemma remove_at_index_absent (l : list A) :
  (forall x, In x l -> id_of x <> i) ->
  slice l 0 (Some (findIndex (fun x => id_of x =? i) l))
  ++ slice l (findIndex (fun x => id_of x =? i) l + 1) None
  = removelast l ++ l.
Proof.
  intros Habs. unfold findIndex. rewrite findIndex_from_absent by exact Habs.
  rewrite slice_to_minus_one. f_equal.
  change (-1 + 1)%Z with (Z.of_nat 0). now rewrite slice_suffix by lia.
Qed.

End ByIndex.

Section CountById.
Variable A : Type.
Variable id_of : A -> string.
Variable i : string.

Lemma count_id_zero (l : list A) :
  count_id id_of i l = 0 <-> (forall x, In x l -> id_of x <> i).
Proof.
  unfold count_id. induction l as [|x rest IH]; simpl.
  - split; [intros _ y [] | reflexivity].
  - destruct (String.eqb_spec (id_of x) i) as [E|N]; simpl.
    + split; [discriminate|]. intros Habs. exfalso.
      apply (Habs x); [now left | exact E].
    + rewrite IH. split.
      * intros Habs y [<- | Hy]; [exact N | now apply Habs].
      * intros Habs y Hy. apply Habs. now right.
Qed.

Lemma count_id_positive (l : list A) :
  1 <= count_id id_of i l <-> (exists x, In x l /\ id_of x = i).
Proof.
  split.
  - intros Hc. induction l as [|x rest IH]; [unfold count_id in Hc; simpl in Hc; lia|].
    destruct (String.eqb_spec (id_of x) i) as [E|N].
    + exists x. split; [now left | exact E].
      + assert (Hr : 1 <= count_id id_of i rest).
      { unfold count_id in *. simpl in Hc.
        destruct (String.eqb_spec (id_of x) i); [contradiction | exact Hc]. }
      destruct (IH Hr) as [y [Hy Ey]]. exists y. split; [now right | exact Ey].
  - intros [x [Hx Ex]].
    destruct (count_id id_of i l) eqn:Hc; [|lia].
    exfalso. apply (proj1 (count_id_zero l) Hc x Hx Ex).
Qed.

Lemma filter_single_match (l : list A) :
  count_id id_of i l <= 1 -> filter (keeps id_of i) l = remove_first id_of i l.
Proof.
  induction l as [|x rest IH]; simpl; [reflexivity|].
  unfold count_id, keeps at 1; simpl.
  destruct (String.eqb_spec (id_of x) i) as [E|N]; simpl; intros Hc.
  - apply filter_absent. apply count_id_zero. unfold count_id. lia.
  - f_equal. apply IH. exact Hc.
Qed.

Lemma removelast_app_self (l : list A) :
  removelast l ++ l = l <-> length l <= 1.
Proof.
  rewrite removelast_firstn_len. split.
  - intros E. apply (f_equal (@length A)) in E.
    rewrite length_app, length_firstn in E. lia.
  - intros Hl. destruct l as [|x [|y rest]]; simpl in *; [reflexivity.. | lia].
Qed.

(** Removal by [findIndex] and [slice] gives what removal by [filter]
    gives exactly when one record has the id, or none has and the array
    has at most one record. *)
Lemma index_removal_is_filter (l : list A) :
  slice l 0 (Some (findIndex (fun x => id_of x =? i) l))
  ++ slice l (findIndex (fun x => id_of x =? i) l + 1) None
  = filter (keeps id_of i) l
  <-> count_id id_of i l = 1 \/ (count_id id_of i l = 0 /\ length l <= 1).
Proof.
  destruct (count_id id_of i l) as [|[|c]] eqn:Hc.
  - pose proof (proj1 (count_id_zero l) Hc) as Habs.
    rewrite remove_at_index_absent by exact Habs.
    rewrite filter_absent by exact Habs.
    rewrite removelast_app_self.
    split; [now right | intros [E|[_ E]]; [discriminate | exact E]].
  - assert (Hex : exists x, In x l /\ id_of x = i)
      by (apply count_id_positive; lia).
    rewrite remove_at_index_present by exact Hex.
    split; [now left|]. intros _. symmetry. apply filter_single_match. lia.
  - assert (Hex : exists x, In x l /\ id_of x = i)
      by (apply count_id_positive; lia).
    rewrite remove_at_index_present by exact Hex.
    split.
    + intros E. exfalso.
      apply (@filter_differs_from_remove_first _ id_of i l); [lia | now symmetry].
    + intros [E | [E _]]; discriminate.
Qed.

End CountById.

Lemma count_id_remove_first (A : Type) (id_of : A -> string) (i : string)
    (l : list A) :
  1 <= count_id id_of i l ->
  S (count_id id_of i (remove_first id_of i l)) = count_id id_of i l.
Proof.
  unfold count_id. induction l as [|x rest IH]; simpl; [lia|].
  destruct (id_of x =? i) eqn:E; simpl; [reflexivity|].
  rewrite E. exact IH.
Qed.

(** ** [bookApp]: removal by index *)

Lemma bookApp_REMOVE_BOOK (S : RootState) (i : string) :
  BookApp.bookApp (Some S) (BookApp.REMOVE_BOOK i)
  = Some {| authors := authors S;
            books :=
              slice (books S) 0
                    (Some (findIndex (fun x => Book.id x =? i) (books S)))
              ++ slice (books S)
                       (findIndex (fun x => Book.id x =? i) (books S) + 1)
                       None |}.
Proof. reflexivity. Qed.

Lemma bookApp_REMOVE_AUTHOR (S : RootState) (i : string) :
  BookApp.bookApp (Some S) (BookApp.REMOVE_AUTHOR i)
  = Some {| authors :=
              slice (authors S) 0
                    (Some (findIndex (fun x => Author.id x =? i) (authors S)))
              ++ slice (authors S)
                       (findIndex (fun x => Author.id x =? i) (authors S) + 1)
                       None;
            books := books S |}.
Proof. reflexivity. Qed.

(** X1: when some book has the id of a REMOVE_BOOK action, [bookApp]
    removes the first such book and no other, so one match fewer is left,
    whatever the number of books sharing the id; REMOVE_AUTHOR does the
    same on the authors. *)
Theorem bookApp_removes_first_match (S : RootState) (i : string) :
  ((exists b, In b (books S) /\ Book.id b = i) ->
   BookApp.bookApp (Some S) (BookApp.REMOVE_BOOK i)
   = Some {| authors := authors S;
             books := remove_first Book.id i (books S) |} /\
   Datatypes.S (count_id Book.id i (remove_first Book.id i (books S)))
   = count_id Book.id i (books S)) /\
  ((exists a, In a (authors S) /\ Author.id a = i) ->
   BookApp.bookApp (Some S) (BookApp.REMOVE_AUTHOR i)
   = Some {| authors := remove_first Author.id i (authors S);
             books := books S |} /\
   Datatypes.S (count_id Author.id i (remove_first Author.id i (authors S)))
   = count_id Author.id i (authors S)).
Proof.
  split; intros Hex.
  - rewrite bookApp_REMOVE_BOOK, remove_at_index_present by exact Hex.
    split; [reflexivity|].
    apply count_id_remove_first. now apply count_id_positive.
  - rewrite bookApp_REMOVE_AUTHOR, remove_at_index_present by exact Hex.
    split; [reflexivity|].
    apply count_id_remove_first. now apply count_id_positive.
Qed.

Lemma bookApp_removes_first_match_witness :
  (BookApp.bookApp
     (Some {| authors := [mark_twain; mark_twain_lower; mark_twain];
              books := [tom_sawyer; snow_crash; snow_crash] |})
     (BookApp.REMOVE_BOOK "b1")
   = Some {| authors := [mark_twain; mark_twain_lower; mark_twain];
             books := [tom_sawyer; snow_crash] |}) /\
  (BookApp.bookApp
     (Some {| authors := [mark_twain; mark_twain_lower; mark_twain];
              books := [tom_sawyer; snow_crash; snow_crash] |})
     (BookApp.REMOVE_AUTHOR "a1")
   = Some {| authors := [mark_twain_lower; mark_twain];
             books := [tom_sawyer; snow_crash; snow_crash] |}).
Proof.
  split.
  - refine (proj1 (proj1 (bookApp_removes_first_match
                     {| authors := [mark_twain; mark_twain_lower; mark_twain];
                        books := [tom_sawyer; snow_crash; snow_crash] |}
                     "b1") _)).
    exists snow_crash. split; [simpl; tauto | reflexivity].
  - refine (proj1 (proj2 (bookApp_removes_first_match
                     {| authors := [mark_twain; mark_twain_lower; mark_twain];
                        books := [tom_sawyer; snow_crash; snow_crash] |}
                     "a1") _)).
    exists mark_twain. split; [simpl; tauto | reflexivity].
Defined.



(** X3: on a removal, [bookApp] and the single reducer of [booksSlice.js],
    which filters, return the same state exactly when one record has the
    id, or none has and the collection has at most one record. *)
Theorem bookApp_agrees_with_filter (S : RootState) (i : string) :
  (BookApp.bookApp (Some S) (BookApp.REMOVE_BOOK i)
   = SingleReducer.reducer (Some S) (SingleReducer.removeBook i)
   <-> count_id Book.id i (books S) = 1 \/
       (count_id Book.id i (books S) = 0 /\ length (books S) <= 1)) /\
  (BookApp.bookApp (Some S) (BookApp.REMOVE_AUTHOR i)
   = SingleReducer.reducer (Some S) (SingleReducer.removeAuthor i)
   <-> count_id Author.id i (authors S) = 1 \/
       (count_id Author.id i (authors S) = 0 /\ length (authors S) <= 1)).
Proof.
  split.
  - rewrite bookApp_REMOVE_BOOK, <- index_removal_is_filter.
    change (SingleReducer.reducer (Some S) (SingleReducer.removeBook i))
      with (Some {| authors := authors S;
                    books := filter (keeps Book.id i) (books S) |}).
    split; [intros E; injection E as E; exact E | intros E; now rewrite E].
  - rewrite bookApp_REMOVE_AUTHOR, <- index_removal_is_filter.
    change (SingleReducer.reducer (Some S) (SingleReducer.removeAuthor i))
      with (Some {| authors := filter (keeps Author.id i) (authors S);
                    books := books S |}).
    split; [intros E; injection E as E; exact E | intros E; now rewrite E].
Qed.

(** ** The single reducer and the two slice reducers *)

Ltac by_action_type t :=
  destruct (String.eqb_spec t "books/add") as [->|?];
  [|destruct (String.eqb_spec t "books/remove") as [->|?];
    [|destruct (String.eqb_spec t "authors/add") as [->|?];
      [|destruct (String.eqb_spec t "authors/remove") as [->|?]]]];
  simpl.

(** X4: on every well-shaped action the single reducer returns a state
    whose [books] field is what [booksReducer] returns on the old [books]
    field, and whose [authors] field is what [authorsReducer] returns on the
    old [authors] field, except for ["books/add"], where the single reducer
    leaves the authors as they are. *)
Theorem single_reducer_fields {G : Type} `{IdGen G}
    (S : RootState) (e : Action) :
  well_shaped e = true ->
  exists S',
    SingleReducer.reducer (Some S) e = Some S' /\
    booksReducer (Some (books S)) e = Some (books S') /\
    (type e = "books/add" -> authors S' = authors S) /\
    (type e <> "books/add" ->
     forall g : G, authorsReducer (Some (authors S)) e g = Some (authors S', g)).
Proof.
  destruct S as [la lb], e as [t p].
  unfold well_shaped, SingleReducer.reducer, booksReducer, authorsReducer;
    simpl.
  by_action_type t; intros Hws.
  - destruct p; try discriminate Hws.
    eexists; repeat split; simpl; congruence.
  - eexists; repeat split; simpl; congruence.
  - destruct p; try discriminate Hws.
    eexists; repeat split; simpl; congruence.
  - eexists; repeat split; simpl; congruence.
  - eexists; repeat split; simpl; congruence.
Qed.

Lemma single_reducer_fields_witness :
  exists S',
    SingleReducer.reducer
      (Some {| authors := [mark_twain]; books := [tom_sawyer] |})
      (removeAuthor "a1") = Some S' /\
    booksReducer (Some [tom_sawyer]) (removeAuthor "a1") = Some (books S') /\
    (type (removeAuthor "a1") = "books/add" -> authors S' = [mark_twain]) /\
    (type (removeAuthor "a1") <> "books/add" ->
     forall g : nat,
       authorsReducer (Some [mark_twain]) (removeAuthor "a1") g
       = Some (authors S', g)).
Proof.
  refine (single_reducer_fields
            {| authors := [mark_twain]; books := [tom_sawyer] |}
            (removeAuthor "a1") _).
  reflexivity.
Defined.

(** X5: the root reducer built by [combineReducers] is the single reducer
    on every action whose type is not ["books/add"], also from an undefined
    state, and asks for no id; on an action that adds a book the two agree
    on the books, and only the root reducer may add an author. *)
Theorem rootReducer_is_single_reducer {G : Type} `{IdGen G}
    (st : option RootState) (g : G) :
  (forall e : Action,
      type e <> "books/add" ->
      rootReducer st e g
      = option_map (fun S' => (S', g)) (SingleReducer.reducer st e)) /\
  (forall b : Book.t,
      exists S1 g1 S2,
        rootReducer st (addBook b) g = Some (S1, g1) /\
        SingleReducer.reducer st (addBook b) = Some S2 /\
        books S1 = books S2 /\
        exists appended,
          authors S1 = authors S2 ++ appended /\ length appended <= 1).
Proof.
  split.
  - intros [t p] Nba; simpl in Nba.
    unfold rootReducer, combineReducers, SingleReducer.reducer,
      booksReducer, authorsReducer; simpl.
    by_action_type t; try contradiction;
      destruct st as [[la lb]|]; simpl; try reflexivity;
      destruct p; reflexivity.
  - intros b.
    unfold rootReducer, combineReducers, SingleReducer.reducer,
      booksReducer, authorsReducer; simpl.
    destruct st as [[la lb]|]; simpl; [destruct (find _ la) as [known|]|].
    2, 3: destruct (uuid g) as [i g1]; do 3 eexists;
      split; [reflexivity|]; split; [reflexivity|];
      split; [reflexivity|]; eexists; simpl;
      split; [reflexivity | simpl; lia].
    do 3 eexists. split; [reflexivity|]. split; [reflexivity|].
    split; [reflexivity|]. exists []. simpl.
    split; [now rewrite app_nil_r | lia].
Qed.

Lemma rootReducer_is_single_reducer_witness :
  rootReducer None (removeBook "b1") 4
  = option_map (fun S' => (S', 4))
               (SingleReducer.reducer None (removeBook "b1")).
Proof.
  refine (proj1 (rootReducer_is_single_reducer None 4) (removeBook "b1") _).
  simpl. discriminate.
Defined.

(** ** Unique ids *)

Section UniqueIds.
Variable A : Type.
Variable id_of : A -> string.

Lemma NoDup_ids_filter (p : A -> bool) (l : list A) :
  NoDup (map id_of l) -> NoDup (map id_of (filter p l)).
Proof.
  induction l as [|x rest IH]; simpl; intros Hnd; [constructor|].
  inversion Hnd as [|? ? Hx Hrest]; subst.
  destruct (p x); simpl; [|now apply IH].
  constructor; [|now apply IH].
  intros Hin. apply Hx. apply in_map_iff in Hin.
  destruct Hin as [y [Ey Hy]]. apply filter_In in Hy.
  rewrite <- Ey. apply in_map. tauto.
Qed.

Lemma NoDup_ids_snoc (x : A) (l : list A) :
  NoDup (map id_of (l ++ [x])) <->
  NoDup (map id_of l) /\ ~ In (id_of x) (map id_of l).
Proof.
  rewrite map_app; simpl. split.
  - intros Hnd. split.
    + now apply NoDup_app_remove_r in Hnd.
    + apply NoDup_remove_2 in Hnd. now rewrite app_nil_r in Hnd.
  - intros [Hnd Hx]. apply NoDup_Add with (a := id_of x) (l := map id_of l).
    + rewrite <- (app_nil_r (map id_of l)) at 1. apply Add_app.
    + split; assumption.
Qed.

End UniqueIds.

Section Invariants.
Context {G : Type} `{IdGen G}.

Lemma booksReducer_ids (s s' : list Book.t) (e : Action) :
  NoDup (map Book.id s) ->
  (forall b, type e = "books/add" -> payload e = book_payload b ->
             ~ In (Book.id b) (map Book.id s)) ->
  booksReducer (Some s) e = Some s' ->
  NoDup (map Book.id s') /\
  (forall b, In b s' -> In b s \/ e = addBook b).
Proof.
  destruct e as [t p]. unfold booksReducer; simpl. intros Hnd Hfresh.
  destruct (String.eqb_spec t "books/add") as [->|_].
  - destruct p as [b| | |]; try discriminate. intros E; injection E as <-.
    split.
    + apply NoDup_ids_snoc. split; [exact Hnd | now apply Hfresh].
    + intros x Hx. apply in_app_or in Hx.
      destruct Hx as [Hx | [<- | []]]; [now left | now right].
  - destruct (t =? "books/remove"); intros E; injection E as <-.
    + split; [now apply NoDup_ids_filter|].
      intros x Hx. apply filter_In in Hx. tauto.
    + split; [exact Hnd | tauto].
Qed.

Lemma authorsReducer_ids (s s' : list Author.t) (e : Action) (g g' : G) :
  NoDup (map Author.id s) ->
  (forall a, In a s -> In (Author.id a) (issued g)) ->
  (forall a, type e = "authors/add" -> payload e = author_payload a ->
             ~ In (Author.id a) (map Author.id s) /\
             In (Author.id a) (issued g)) ->
  authorsReducer (Some s) e g = Some (s', g') ->
  NoDup (map Author.id s') /\
  (forall a, In a s' -> In (Author.id a) (issued g')) /\
  incl (issued g) (issued g').
Proof.
  destruct e as [t p]. unfold authorsReducer; simpl. intros Hnd Hiss Hfresh.
  destruct (String.eqb_spec t "authors/add") as [->|_].
  - destruct p as [|a| |]; try discriminate. intros E; injection E as <- <-.
    destruct (Hfresh a eq_refl eq_refl) as [Hnew Hin].
    split; [apply NoDup_ids_snoc; tauto|].
    split; [|apply incl_refl].
    intros x Hx. apply in_app_or in Hx.
    destruct Hx as [Hx | [<- | []]]; [now apply Hiss | exact Hin].
  - destruct (t =? "authors/remove").
    + intros E; injection E as <- <-.
      split; [now apply NoDup_ids_filter|].
      split; [|apply incl_refl].
      intros x Hx. apply filter_In in Hx. apply Hiss. tauto.
    + destruct (t =? "books/add").
      * destruct (payload_authorName p) as [name|]; [|discriminate].
        destruct (find _ s) as [known|].
        -- intros E; injection E as <- <-.
           split; [exact Hnd|]. split; [exact Hiss | apply incl_refl].
        -- pose proof (uuid_fresh g) as Hf. pose proof (uuid_issued g) as Hi.
           destruct (uuid g) as [i g1]; simpl in Hf, Hi.
           intros E; injection E as <- <-.
           split.
           ++ apply NoDup_ids_snoc. split; [exact Hnd|]. simpl.
              intros Hin. apply Hf. apply in_map_iff in Hin.
              destruct Hin as [x [Ex Hx]]. rewrite <- Ex. now apply Hiss.
           ++ rewrite Hi. split.
              ** intros x Hx. apply in_app_or in Hx.
                 destruct Hx as [Hx | [<- | []]];
                   [right; now apply Hiss | now left].
              ** intros x Hx. now right.
      * intros E; injection E as <- <-.
        split; [exact Hnd|]. split; [exact Hiss | apply incl_refl].
Qed.

Lemma rootReducer_slices (S S' : RootState) (e : Action) (g g' : G) :
  rootReducer (Some S) e g = Some (S', g') ->
  authorsReducer (Some (authors S)) e g = Some (authors S', g') /\
  booksReducer (Some (books S)) e = Some (books S').
Proof.
  unfold rootReducer, combineReducers; simpl.
  destruct (authorsReducer (Some (authors S)) e g) as [[a' g1]|];
    [|discriminate].
  destruct (booksReducer (Some (books S)) e) as [b'|]; [|discriminate].
  intros E; injection E as <- <-. split; reflexivity.
Qed.

End Invariants.

Lemma app_step_ids_unique {G : Type} `{IdGen G} (x y : RootState * G) :
  ids_unique (fst x) (snd x) -> app_step x y -> ids_unique (fst y) (snd y).
Proof.
  intros [Hb [Ha [Hbi Hai]]] Hstep.
  destruct Hstep as [S g fd S' g' Hr | S g name S' g' Hr | S g i S' g' Hr
                    | S g i S' g' Hr | S g e S' g' Hn Hr]; simpl in *.
  - (* the book form *)
    unfold BookInput.handleSubmit in Hr.
    pose proof (uuid_fresh g) as Hf. pose proof (uuid_issued g) as Hi.
    destruct (uuid g) as [i g1]; simpl in Hf, Hi, Hr.
    apply rootReducer_slices in Hr. destruct Hr as [Hra Hrb].
    apply authorsReducer_ids in Hra;
      [ | exact Ha
        | intros a Hin; rewrite Hi; right; now apply Hai
        | intros a Et; discriminate Et ].
    destruct Hra as [Ha' [Hai' Hincl]].
    apply booksReducer_ids in Hrb;
      [ | exact Hb
        | intros b _ Eb; injection Eb as <-; simpl; intros Hin; apply Hf;
          apply in_map_iff in Hin; destruct Hin as [z [Ez Hz]];
          rewrite <- Ez; now apply Hbi ].
    destruct Hrb as [Hb' Hmem].
    repeat split; try assumption.
    intros b Hin. apply Hincl. rewrite Hi.
    destruct (Hmem b Hin) as [Hold | Enew].
    + right. now apply Hbi.
    + injection Enew as <-. now left.
  - (* the author form *)
    unfold AuthorInput.handleSubmit in Hr.
    pose proof (uuid_fresh g) as Hf. pose proof (uuid_issued g) as Hi.
    destruct (uuid g) as [i g1]; simpl in Hf, Hi, Hr.
    apply rootReducer_slices in Hr. destruct Hr as [Hra Hrb].
    apply authorsReducer_ids in Hra;
      [ | exact Ha
        | intros a Hin; rewrite Hi; right; now apply Hai
        | intros a _ Ea; injection Ea as <-; simpl; split;
          [ intros Hin; apply Hf; apply in_map_iff in Hin;
            destruct Hin as [z [Ez Hz]]; rewrite <- Ez; now apply Hai
          | rewrite Hi; now left ] ].
    destruct Hra as [Ha' [Hai' Hincl]].
    apply booksReducer_ids in Hrb;
      [ | exact Hb | intros b Et; discriminate Et ].
    destruct Hrb as [Hb' Hmem].
    repeat split; try assumption.
    intros b Hin. apply Hincl. rewrite Hi. right.
    destruct (Hmem b Hin) as [Hold | Enew]; [now apply Hbi | discriminate Enew].
  - (* removal of a book *)
    apply rootReducer_slices in Hr. destruct Hr as [Hra Hrb].
    apply authorsReducer_ids in Hra;
      [ | exact Ha | exact Hai | intros a Et; discriminate Et ].
    destruct Hra as [Ha' [Hai' Hincl]].
    apply booksReducer_ids in Hrb;
      [ | exact Hb | intros b Et; discriminate Et ].
    destruct Hrb as [Hb' Hmem].
    repeat split; try assumption.
    intros b Hin. apply Hincl.
    destruct (Hmem b Hin) as [Hold | Enew]; [now apply Hbi | discriminate Enew].
  - (* removal of an author *)
    apply rootReducer_slices in Hr. destruct Hr as [Hra Hrb].
    apply authorsReducer_ids in Hra;
      [ | exact Ha | exact Hai | intros a Et; discriminate Et ].
    destruct Hra as [Ha' [Hai' Hincl]].
    apply booksReducer_ids in Hrb;
      [ | exact Hb | intros b Et; discriminate Et ].
    destruct Hrb as [Hb' Hmem].
    repeat split; try assumption.
    intros b Hin. apply Hincl.
    destruct (Hmem b Hin) as [Hold | Enew]; [now apply Hbi | discriminate Enew].
  - (* an action no reducer handles *)
    assert (Nba : type e <> "books/add")
      by (intros E; apply Hn; rewrite E; simpl; tauto).
    assert (Naa : type e <> "authors/add")
      by (intros E; apply Hn; rewrite E; simpl; tauto).
    apply rootReducer_slices in Hr. destruct Hr as [Hra Hrb].
    apply authorsReducer_ids in Hra;
      [ | exact Ha | exact Hai | intros a Et; contradiction ].
    destruct Hra as [Ha' [Hai' Hincl]].
    apply booksReducer_ids in Hrb;
      [ | exact Hb | intros b Et; contradiction ].
    destruct Hrb as [Hb' Hmem].
    repeat split; try assumption.
    intros b Hin. apply Hincl.
    destruct (Hmem b Hin) as [Hold | Enew]; [now apply Hbi|].
    exfalso. apply Nba. now rewrite Enew.
Qed.

(** X6: [booksReducer] keeps the ids of the books pairwise distinct: when
    they are, they still are after any action, provided a book that is
    added brings an id no book has.  The reducer does not check this
    itself: adding a book whose id is taken leaves two books with one
    id. *)
Theorem booksReducer_keeps_ids_unique :
  (forall (s s' : list Book.t) (e : Action),
      NoDup (map Book.id s) ->
      (forall b, type e = "books/add" -> payload e = book_payload b ->
                 ~ In (Book.id b) (map Book.id s)) ->
      booksReducer (Some s) e = Some s' ->
      NoDup (map Book.id s')) /\
  (forall (s : list Book.t) (b : Book.t),
      In (Book.id b) (map Book.id s) ->
      exists s', booksReducer (Some s) (addBook b) = Some s' /\
                 ~ NoDup (map Book.id s')).
Proof.
  split.
  - intros s s' e Hnd Hfresh Hr.
    exact (proj1 (@booksReducer_ids s s' e Hnd Hfresh Hr)).
  - intros s b Hin. exists (s ++ [b]). split; [reflexivity|].
    intros Hnd. apply NoDup_ids_snoc in Hnd. tauto.
Qed.

Lemma booksReducer_keeps_ids_unique_witness :
  NoDup (map Book.id [tom_sawyer; snow_crash]) /\
  exists s', booksReducer (Some [tom_sawyer]) (addBook tom_sawyer) = Some s' /\
             ~ NoDup (map Book.id s').
Proof.
  split.
  - refine (proj1 booksReducer_keeps_ids_unique
              [tom_sawyer] [tom_sawyer; snow_crash] (addBook snow_crash)
              _ _ eq_refl).
    + simpl. repeat constructor. simpl. tauto.
    + intros b _ Eb. injection Eb as <-. simpl. intuition discriminate.
  - refine (proj2 booksReducer_keeps_ids_unique [tom_sawyer] tom_sawyer _).
    simpl. tauto.
Defined.

(** X7: [authorsReducer] keeps the ids of the authors pairwise distinct
    and issued by the generator: when they are, they still are after any
    action, also one that makes the reducer synthesize an author, provided
    an author that is added brings an issued id no author has; and the
    generator forgets no id. *)
Theorem authorsReducer_keeps_ids_unique {G : Type} `{IdGen G}
    (s s' : list Author.t) (e : Action) (g g' : G) :
  NoDup (map Author.id s) ->
  (forall a, In a s -> In (Author.id a) (issued g)) ->
  (forall a, type e = "authors/add" -> payload e = author_payload a ->
             ~ In (Author.id a) (map Author.id s) /\
             In (Author.id a) (issued g)) ->
  authorsReducer (Some s) e g = Some (s', g') ->
  NoDup (map Author.id s') /\
  (forall a, In a s' -> In (Author.id a) (issued g')) /\
  incl (issued g) (issued g').
Proof. apply authorsReducer_ids. Qed.

Lemma authorsReducer_keeps_ids_unique_witness :
  let s := [{| Author.id := "id-"; Author.authorName := "Mark Twain" |}] in
  let s' := s ++ [{| Author.id := "id-|";
                     Author.authorName := "Neal Stephenson" |}] in
  NoDup (map Author.id s') /\
  (forall a, In a s' -> In (Author.id a) (issued 2)) /\
  incl (issued 1) (issued 2).
Proof.
  intros s s'.
  refine (authorsReducer_keeps_ids_unique s (addBook snow_crash) 1 _ _ _ eq_refl).
  - simpl. repeat constructor. simpl. tauto.
  - intros a [<- | []]. simpl. tauto.
  - intros a Et. discriminate Et.
Defined.

(** X8: in every state that a run of the application reaches from the
    empty state, through the two forms, removals and actions no reducer
    handles, the ids of the books are pairwise distinct, so are the ids of
    the authors, and all of them are ids the generator issued. *)
Theorem reachable_ids_unique {G : Type} `{IdGen G} (g0 : G)
    (x : RootState * G) :
  reachable g0 x -> ids_unique (fst x) (snd x).
Proof.
  induction 1 as [|x y Hx IH Hstep].
  - simpl. repeat split; try constructor; intros ? [].
  - exact (app_step_ids_unique IH Hstep).
Qed.

Lemma reachable_ids_unique_witness :
  ids_unique
    {| authors := [{| Author.id := "id-|";
                      Author.authorName := "Neal Stephenson" |}];
       books := [{| Book.id := "id-"; Book.title := "Snow Crash";
                    Book.authorName := "Neal Stephenson" |}] |}
    2.
Proof.
  refine (reachable_ids_unique (g0 := 0) (x := (_, 2)) _).
  refine (reachable_step (reachable_start 0) _).
  refine (step_submit_book
            {| authors := []; books := [] |} 0
            {| BookInput.title := "Snow Crash";
               BookInput.authorName := "Neal Stephenson" |} _).
  reflexivity.
Defined.

(** ** Authors registered from books *)

Lemma count_name_positive (name : string) (s : list Author.t) (a : Author.t) :
  In a s -> Author.authorName a = name -> 1 <= count_name name s.
Proof.
  intros Hin E. destruct (count_name name s) eqn:Hc; [|lia].
  exfalso. exact (proj1 (count_name_zero name s) Hc a Hin E).
Qed.

Lemma count_name_other (name other : string) (i : string) :
  other <> name ->
  count_name other [{| Author.id := i; Author.authorName := name |}] = 0.
Proof.
  intros Hne. unfold count_name; simpl.
  destruct (String.eqb_spec name other) as [E|_]; [|reflexivity].
  exfalso. now apply Hne.
Qed.

(** X9: an action that adds a book always leaves an author with the
    book's author name in the authors: the number of authors of that name
    becomes one when it was zero and is unchanged otherwise, the number of
    authors of any other name is unchanged, and the same action a second
    time changes nothing and asks for no id. *)
Theorem authorsReducer_addBook_registers {G : Type} `{IdGen G}
    (s : list Author.t) (b : Book.t) (g : G) :
  exists s' g',
    authorsReducer (Some s) (addBook b) g = Some (s', g') /\
    (exists a, In a s' /\ Author.authorName a = Book.authorName b) /\
    count_name (Book.authorName b) s'
    = Nat.max 1 (count_name (Book.authorName b) s) /\
    (forall other, other <> Book.authorName b ->
                   count_name other s' = count_name other s) /\
    authorsReducer (Some s') (addBook b) g' = Some (s', g').
Proof.
  destruct (find (fun a => Author.authorName a =? Book.authorName b) s)
    as [known|] eqn:Hfind.
  - apply find_some in Hfind. destruct Hfind as [Hin E].
    apply String.eqb_eq in E.
    assert (Hex : exists a, In a s /\ Author.authorName a = Book.authorName b)
      by (now exists known).
    exists s, g. split; [now apply authorsReducer_addBook_known|].
    split; [exact Hex|].
    split; [pose proof (@count_name_positive _ s known Hin E); lia|].
    split; [reflexivity | now apply authorsReducer_addBook_known].
  - assert (Habs : forall a, In a s ->
                             Author.authorName a <> Book.authorName b).
    { intros a Ha E. apply String.eqb_eq in E.
      pose proof (find_none _ _ Hfind a Ha) as Hf. simpl in Hf. congruence. }
    eexists _, _. split; [now apply authorsReducer_addBook_new|].
    split.
    { eexists. split; [apply in_or_app; right; now left | reflexivity]. }
    split.
    { rewrite count_name_app, (proj2 (count_name_zero _ s) Habs).
      unfold count_name; simpl. now rewrite String.eqb_refl. }
    split.
    { intros other Hne. rewrite count_name_app, count_name_other by exact Hne.
      lia. }
    apply authorsReducer_addBook_known.
    eexists. split; [apply in_or_app; right; now left | reflexivity].
Qed.

(** X10: when no author has the id of author [a], "add author" with [a]
    followed by "remove author" with the id of [a] gives the authors
    back, and asks for no id. *)
Theorem add_then_remove_author {G : Type} `{IdGen G}
    (s : list Author.t) (a : Author.t) (g : G) :
  ~ In (Author.id a) (map Author.id s) ->
  exists s1,
    authorsReducer (Some s) (addAuthor a) g = Some (s1, g) /\
    authorsReducer (Some s1) (removeAuthor (Author.id a)) g = Some (s, g).
Proof.
  intros Hn. exists (s ++ [a]). split; [apply authorsReducer_add|].
  rewrite authorsReducer_remove, filter_app. simpl.
  unfold keeps at 2; simpl. rewrite String.eqb_refl; simpl.
  rewrite app_nil_r. do 2 f_equal. apply filter_absent.
  intros x Hx E. apply Hn. rewrite <- E. now apply in_map.
Qed.

Lemma add_then_remove_author_witness :
  exists s1,
    authorsReducer (Some [mark_twain_lower]) (addAuthor mark_twain) 5
    = Some (s1, 5) /\
    authorsReducer (Some s1) (removeAuthor (Author.id mark_twain)) 5
    = Some ([mark_twain_lower], 5).
Proof.
  refine (add_then_remove_author [mark_twain_lower] mark_twain 5 _).
  simpl. intuition discriminate.
Defined.

(** X11: removing a book does not remove the author that adding it
    registered: after "add book" for an author name that is new, the authors
    have one more record, and no "remove book" action, whatever its id,
    changes them. *)
Theorem removing_book_keeps_author {G : Type} `{IdGen G}
    (s : list Author.t) (b : Book.t) (g : G) :
  (forall a, In a s -> Author.authorName a <> Book.authorName b) ->
  exists s1 g1,
    authorsReducer (Some s) (addBook b) g = Some (s1, g1) /\
    length s1 = Datatypes.S (length s) /\
    (exists a, In a s1 /\ Author.authorName a = Book.authorName b) /\
    (forall i, authorsReducer (Some s1) (removeBook i) g1 = Some (s1, g1)).
Proof.
  intros Habs. eexists _, _.
  split; [now apply authorsReducer_addBook_new|].
  split; [rewrite length_app; simpl; lia|].
  split; [|reflexivity].
  eexists. split; [apply in_or_app; right; now left | reflexivity].
Qed.

Lemma removing_book_keeps_author_witness :
  exists s1 g1,
    authorsReducer (Some [mark_twain]) (addBook snow_crash) 0 = Some (s1, g1) /\
    length s1 = 2 /\
    (exists a, In a s1 /\ Author.authorName a = "Neal Stephenson") /\
    (forall i, authorsReducer (Some s1) (removeBook i) g1 = Some (s1, g1)).
Proof.
  refine (removing_book_keeps_author [mark_twain] snow_crash 0 _).
  intros a [<- | []]. simpl. discriminate.
Defined.

(** ** Removals compose *)

Lemma filter_commutes (A : Type) (p q : A -> bool) (l : list A) :
  filter p (filter q l) = filter q (filter p l).
Proof.
  induction l as [|x rest IH]; simpl; [reflexivity|].
  destruct (p x) eqn:Ep, (q x) eqn:Eq; simpl; rewrite ?Ep, ?Eq, IH; reflexivity.
Qed.

Lemma filter_twice (A : Type) (p : A -> bool) (l : list A) :
  filter p (filter p l) = filter p l.
Proof.
  induction l as [|x rest IH]; simpl; [reflexivity|].
  destruct (p x) eqn:Ep; simpl; rewrite ?Ep, IH; reflexivity.
Qed.

(** X12: removals commute and repeat without effect: removing id [i] and
    then id [j] gives the books that removing [j] and then [i] gives, and
    removing [i] a second time changes nothing; the same holds for the
    authors. *)
Theorem removals_commute {G : Type} `{IdGen G} (i j : string) :
  (forall s : list Book.t,
      exists s1 s2 s12,
        booksReducer (Some s) (removeBook i) = Some s1 /\
        booksReducer (Some s) (removeBook j) = Some s2 /\
        booksReducer (Some s1) (removeBook j) = Some s12 /\
        booksReducer (Some s2) (removeBook i) = Some s12 /\
        booksReducer (Some s1) (removeBook i) = Some s1) /\
  (forall (s : list Author.t) (g : G),
      exists s1 s2 s12,
        authorsReducer (Some s) (removeAuthor i) g = Some (s1, g) /\
        authorsReducer (Some s) (removeAuthor j) g = Some (s2, g) /\
        authorsReducer (Some s1) (removeAuthor j) g = Some (s12, g) /\
        authorsReducer (Some s2) (removeAuthor i) g = Some (s12, g) /\
        authorsReducer (Some s1) (removeAuthor i) g = Some (s1, g)).
Proof.
  split.
  - intros s. eexists _, _, _. rewrite !booksReducer_remove.
    split; [reflexivity|]. split; [reflexivity|]. split; [reflexivity|].
    split; [now rewrite filter_commutes | now rewrite filter_twice].
  - intros s g. eexists _, _, _. rewrite !authorsReducer_remove.
    split; [reflexivity|]. split; [reflexivity|]. split; [reflexivity|].
    split; [now rewrite filter_commutes | now rewrite filter_twice].
Qed.

(** ** The lists shown *)

(** X13: in every state that a run of the application reaches, the items
    of the list of books have pairwise distinct keys, and so have the items
    of the list of authors; there is one item for each record, in the order
    of the records. *)
Theorem reachable_keys_unique {G : Type} `{IdGen G} (g0 : G)
    (x : RootState * G) :
  reachable g0 x ->
  NoDup (map key (Books (fst x))) /\
  NoDup (map key (Authors (fst x))) /\
  map key (Books (fst x)) = map Book.id (books (fst x)) /\
  map key (Authors (fst x)) = map Author.id (authors (fst x)).
Proof.
  intros Hr.
  assert (Hinv : ids_unique (fst x) (snd x)).
  { induction Hr as [|x y Hx IH Hstep].
    - simpl. repeat split; try constructor; intros ? [].
    - exact (app_step_ids_unique IH Hstep). }
  destruct Hinv as [Hb [Ha _]].
  assert (Eb : map key (Books (fst x)) = map Book.id (books (fst x)))
    by (unfold Books; rewrite map_map; reflexivity).
  assert (Ea : map key (Authors (fst x)) = map Author.id (authors (fst x)))
    by (unfold Authors; rewrite map_map; reflexivity).
  rewrite Eb, Ea. repeat split; assumption.
Qed.

Lemma reachable_keys_unique_witness :
  let S1 := {| authors := [{| Author.id := "id-|";
                              Author.authorName := "Mark Twain" |}];
               books := [{| Book.id := "id-"; Book.title := "Roughing It";
                            Book.authorName := "Mark Twain" |}] |} in
  let S2 := {| authors := authors S1
                          ++ [{| Author.id := "id-||";
                                 Author.authorName := "Mark Twain" |}];
               books := books S1 |} in
  NoDup (map key (Books S2)) /\
  NoDup (map key (Authors S2)) /\
  map key (Books S2) = map Book.id (books S2) /\
  map key (Authors S2) = map Author.id (authors S2).
Proof.
  intros S1 S2.
  refine (reachable_keys_unique (g0 := 0) (x := (S2, 3)) _).
  refine (reachable_step (x := (S1, 2)) (reachable_step (reachable_start 0) _) _).
  - refine (step_submit_book {| authors := []; books := [] |} 0
              {| BookInput.title := "Roughing It";
                 BookInput.authorName := "Mark Twain" |} _).
    reflexivity.
  - refine (step_submit_author S1 2 "Mark Twain" _).
    reflexivity.
Defined.
